(** * csaf_aggregator: configuration loading, defaults, validation,
      key cache and HTTP client factory

    A shallow embedding of [cmd/csaf_aggregator/config.go] and the
    properties of its specification.

    Conventions.
    - Go's [int] is modelled by [Z].  The code compares and copies integers
      and never adds or multiplies them, so no wrap-around can occur.
    - A nullable pointer ([*float64], [*bool], [*string], [*crypto.Key])
      and a nullable interface ([error]) are modelled by [option].
    - A [float64] is a primitive binary64 float; the code only copies them.
    - Calls that leave the program ([runtime.NumCPU], [os.Open],
      [crypto.NewKeyFromArmoredReader], [toml.DecodeFile]) are parameters:
      every theorem holds for all of their possible answers. *)

From Stdlib Require Import ZArith String Floats.
From stdpp Require Import base gmap strings list.

Open Scope Z_scope.

(** A proof depends on the section variables of its statement only. *)
Set Default Proof Using "Type".

(** ** Values of the Go runtime and of the imported packages *)

(** An [error] value, identified by its message ([err.Error()]). *)
Definition error : Type := string.

(** A [*crypto.Key] and an [*os.File] are handles: the code stores them,
    compares them with [nil] and hands them on.  A handle is modelled by the
    identity of the object it points to. *)
Definition crypto_Key : Type := nat.
Definition os_File : Type := nat.

(** [tls.Config], [http.Transport] and [http.Client], restricted to the
    fields the code sets.  A [None] transport is Go's default transport,
    which verifies certificates. *)
Record tls_Config : Type := { InsecureSkipVerify : bool }.
Record http_Transport : Type := { TLSClientConfig : option tls_Config }.
Record http_Client : Type := { Transport : option http_Transport }.

(** [rate.Limiter]: the token bucket built by [rate.NewLimiter(r, b)] is
    determined by its rate [r] and its burst capacity [b]. *)
Record rate_Limiter : Type := { limit : float; burst : Z }.

Definition rate_NewLimiter (r : float) (b : Z) : rate_Limiter :=
  {| limit := r; burst := b |}.

(** Modelled from the spec: the [client] interface and its implementation
    [limitingClient] are declared in another file of the package.  A client
    is either a plain [*http.Client] or a [limitingClient] holding the plain
    client it wraps and its limiter. *)
Inductive client : Type :=
  | plainClient (c : http_Client)
  | limitingClient (c : http_Client) (limiter : rate_Limiter).

(** The [http.Client] that performs the requests of a client. *)
Definition client_http (cl : client) : http_Client :=
  match cl with
  | plainClient c => c
  | limitingClient c _ => c
  end.

(** The limiter in front of a client, if any. *)
Definition client_limiter (cl : client) : option rate_Limiter :=
  match cl with
  | plainClient _ => None
  | limitingClient _ l => Some l
  end.

(** Whether requests through this [http.Client] skip certificate
    verification. *)
Definition skipsVerify (c : http_Client) : bool :=
  match Transport c with
  | Some t =>
      match TLSClientConfig t with
      | Some cfg => InsecureSkipVerify cfg
      | None => false
      end
  | None => false
  end.

(** ** Constants *)

Definition defaultConfigPath : string := "aggregator.toml".
Definition defaultWorkers : Z := 10.
Definition defaultFolder : string := "/var/www".
Definition defaultWeb : string := "/var/www/html".
Definition defaultDomain : string := "https://example.com".

(** ** [type provider struct] *)

Module provider.
Record t : Type := mk {
  Name : string;
  Domain : string;
  Rate : option float;
  Insecure : option bool
}.
End provider.

(** ** What a call of [cryptoKey] does to the outside world *)

Inductive event : Type :=
  | EvLock
  | EvUnlock
  | EvOpen (path : string)
  | EvParse (f : os_File)
  | EvClose (f : os_File).

Definition is_open (e : event) : bool :=
  match e with
  | EvOpen _ => true
  | _ => false
  end.

(** How often a file was opened in a history of events. *)
Definition opens (tr : list event) : nat := length (List.filter is_open tr).

(** A call on a sequential history either returns or blocks for ever on a
    mutex that nobody will release. *)
Inductive outcome (A : Type) : Type :=
  | Returns (a : A)
  | Blocked.
Arguments Returns {A} a.
Arguments Blocked {A}.

Section Aggregator.

(** [csaf.AggregatorInfo] and its method [Validate] live in the package
    [csaf] of the repository; the configuration code treats both as
    opaque. *)
Variable AggregatorInfo : Type.
Variable Validate : AggregatorInfo -> option error.

(** ** [type config struct] *)

(** [keyMu] is [true] while the mutex is held. *)
Record config : Type := mkConfig {
  Workers : Z;
  Folder : string;
  Web : string;
  Domain : string;
  Rate : option float;
  Insecure : option bool;
  Aggregator : AggregatorInfo;
  Providers : list provider.t;
  Key : string;
  Passphrase : option string;
  keyMu : bool;
  key : option crypto_Key;
  keyErr : option error
}.

(** Assignments to single fields. *)
Definition set_Workers (v : Z) (c : config) : config :=
  mkConfig v (Folder c) (Web c) (Domain c) (Rate c) (Insecure c)
    (Aggregator c) (Providers c) (Key c) (Passphrase c)
    (keyMu c) (key c) (keyErr c).

Definition set_Folder (v : string) (c : config) : config :=
  mkConfig (Workers c) v (Web c) (Domain c) (Rate c) (Insecure c)
    (Aggregator c) (Providers c) (Key c) (Passphrase c)
    (keyMu c) (key c) (keyErr c).

Definition set_Web (v : string) (c : config) : config :=
  mkConfig (Workers c) (Folder c) v (Domain c) (Rate c) (Insecure c)
    (Aggregator c) (Providers c) (Key c) (Passphrase c)
    (keyMu c) (key c) (keyErr c).

Definition set_Domain (v : string) (c : config) : config :=
  mkConfig (Workers c) (Folder c) (Web c) v (Rate c) (Insecure c)
    (Aggregator c) (Providers c) (Key c) (Passphrase c)
    (keyMu c) (key c) (keyErr c).

Definition set_keyMu (v : bool) (c : config) : config :=
  mkConfig (Workers c) (Folder c) (Web c) (Domain c) (Rate c) (Insecure c)
    (Aggregator c) (Providers c) (Key c) (Passphrase c)
    v (key c) (keyErr c).

Definition set_key (v : option crypto_Key) (c : config) : config :=
  mkConfig (Workers c) (Folder c) (Web c) (Domain c) (Rate c) (Insecure c)
    (Aggregator c) (Providers c) (Key c) (Passphrase c)
    (keyMu c) v (keyErr c).

Definition set_keyErr (v : option error) (c : config) : config :=
  mkConfig (Workers c) (Folder c) (Web c) (Domain c) (Rate c) (Insecure c)
    (Aggregator c) (Providers c) (Key c) (Passphrase c)
    (keyMu c) (key c) v.

(** [p != nil] for a nullable value. *)
Definition non_nil {A : Type} (p : option A) : bool :=
  match p with
  | Some _ => true
  | None => false
  end.

(** [p != nil && *p] for a [*bool]. *)
Definition set_and_true (p : option bool) : bool :=
  match p with
  | Some b => b
  | None => false
  end.

(** ** [func (c *config) httpClient(p *provider) client] *)

Definition httpClient (c : config) (p : provider.t) : client :=
  let client := {| Transport := None |} in
  let client :=
    if set_and_true (provider.Insecure p) || set_and_true (Insecure c)
    then {| Transport := Some {| TLSClientConfig :=
              Some {| InsecureSkipVerify := true |} |} |}
    else client in
  if negb (non_nil (provider.Rate p)) && negb (non_nil (Rate c))
  then plainClient client
  else
    let r := 0%float in
    let r := match Rate c with Some x => x | None => r end in
    let r := match provider.Rate p with Some x => x | None => r end in
    limitingClient client (rate_NewLimiter r 1).

(** ** [func (c *config) checkProviders() error] *)

(** The body of the [for ... range c.Providers] loop, started with the
    map [already] on the providers still to visit.  Reading a missing key
    of a Go [map[string]bool] gives [false]. *)
Fixpoint checkProviders_loop (already : gmap string bool)
    (ps : list provider.t) : option error :=
  match ps with
  | [] => None
  | p :: ps' =>
      if (provider.Name p =? "")%string
      then Some "no name given for provider"%string
      else if (provider.Domain p =? "")%string
      then Some "no domain given for provider"%string
      else if default false (already !! provider.Name p)
      then Some ("provider '" +:+ provider.Name p
                 +:+ "' is configured more than once")%string
      else checkProviders_loop (<[provider.Name p := true]> already) ps'
  end.

Definition checkProviders (c : config) : option error :=
  checkProviders_loop ∅ (Providers c).

(** ** [func (c *config) setDefaults()] *)

(** [NumCPU] is the answer of [runtime.NumCPU()]. *)
Definition setDefaults (NumCPU : Z) (c : config) : config :=
  let c := if (Folder c =? "")%string then set_Folder defaultFolder c else c in
  let c := if (Web c =? "")%string then set_Web defaultWeb c else c in
  let c := if (Domain c =? "")%string then set_Domain defaultDomain c else c in
  let c :=
    if Workers c <=? 0
    then
      let n := NumCPU in
      if n >? defaultWorkers
      then set_Workers defaultWorkers c
      else set_Workers n c
    else c in
  if Workers c >? Z.of_nat (length (Providers c))
  then set_Workers (Z.of_nat (length (Providers c))) c
  else c.

(** ** [func (c *config) check() error] *)

Definition check (c : config) : option error :=
  if (Z.of_nat (length (Providers c)) =? 0)
  then Some "no providers given in configuration"%string
  else
    match Validate (Aggregator c) with
    | Some err => Some err
    | None => checkProviders c
    end.

(** ** [func (c *config) cryptoKey()], returning a key handle and an error *)

(** The answers of the file system and of the key parser.  Both may depend
    on everything that happened before the call, so a file can change,
    appear or vanish between two calls.  [os.Open] gives a file or an
    error; the parser gives a pair of nullable values as its Go type
    says. *)
Variable os_Open : list event -> string -> os_File + error.
Variable crypto_NewKeyFromArmoredReader :
  list event -> os_File -> option crypto_Key * option error.

(** A call takes the configuration and the history so far; when it returns
    it gives its two results, the configuration as the call left it and the
    extended history.  The deferred calls run on every return after they
    were registered, last registered first. *)
Definition cryptoKey (c : config) (tr : list event)
    : outcome ((option crypto_Key * option error) * config * list event) :=
  if (Key c =? "")%string
  then Returns ((None, None), c, tr)
  else if keyMu c
  then Blocked
  else
    let c := set_keyMu true c in
    let tr := tr ++ [EvLock] in
    if non_nil (key c) || non_nil (keyErr c)
    then Returns ((key c, keyErr c), set_keyMu false c, tr ++ [EvUnlock])
    else
      let opened := os_Open tr (Key c) in
      let tr := tr ++ [EvOpen (Key c)] in
      match opened with
      | inr err =>
          let c := set_keyErr (Some err) c in
          Returns ((None, keyErr c), set_keyMu false c, tr ++ [EvUnlock])
      | inl f =>
          let c := set_keyErr None c in
          let parsed := crypto_NewKeyFromArmoredReader tr f in
          let tr := tr ++ [EvParse f] in
          let c := set_keyErr (snd parsed) (set_key (fst parsed) c) in
          Returns ((key c, keyErr c), set_keyMu false c,
                   tr ++ [EvClose f; EvUnlock])
      end.

(** [n] calls one after the other; the results are listed in call order. *)
Fixpoint cryptoKey_calls (n : nat) (c : config) (tr : list event)
    : outcome (list (option crypto_Key * option error) * config * list event) :=
  match n with
  | O => Returns ([], c, tr)
  | S n' =>
      match cryptoKey c tr with
      | Blocked => Blocked
      | Returns (r, c', tr') =>
          match cryptoKey_calls n' c' tr' with
          | Blocked => Blocked
          | Returns (rs, c'', tr'') => Returns (r :: rs, c'', tr'')
          end
      end
  end.

(** ** [func loadConfig(path string)], returning a configuration and an error *)

(** [toml.DecodeFile(path, &cfg)] on a zero [cfg]: what [cfg] holds after
    the call, and the error.  [NumCPU] is the answer of
    [runtime.NumCPU()]. *)
Variable toml_DecodeFile : string -> config * option error.
Variable NumCPU : Z.

Definition loadConfig (path : string) : option config * option error :=
  let path := if (path =? "")%string then defaultConfigPath else path in
  let decoded := toml_DecodeFile path in
  let cfg := fst decoded in
  match snd decoded with
  | Some err => (None, Some err)
  | None =>
      let cfg := setDefaults NumCPU cfg in
      match check cfg with
      | Some err => (None, Some err)
      | None => (Some cfg, None)
      end
  end.

End Aggregator.

Arguments mkConfig {AggregatorInfo}.
Arguments Workers {AggregatorInfo}.
Arguments Folder {AggregatorInfo}.
Arguments Web {AggregatorInfo}.
Arguments Domain {AggregatorInfo}.
Arguments Rate {AggregatorInfo}.
Arguments Insecure {AggregatorInfo}.
Arguments Aggregator {AggregatorInfo}.
Arguments Providers {AggregatorInfo}.
Arguments Key {AggregatorInfo}.
Arguments Passphrase {AggregatorInfo}.
Arguments keyMu {AggregatorInfo}.
Arguments key {AggregatorInfo}.
Arguments keyErr {AggregatorInfo}.
Arguments set_Workers {AggregatorInfo}.
Arguments set_Folder {AggregatorInfo}.
Arguments set_Web {AggregatorInfo}.
Arguments set_Domain {AggregatorInfo}.
Arguments set_keyMu {AggregatorInfo}.
Arguments set_key {AggregatorInfo}.
Arguments set_keyErr {AggregatorInfo}.
Arguments httpClient {AggregatorInfo}.
Arguments checkProviders {AggregatorInfo}.
Arguments setDefaults {AggregatorInfo}.
Arguments check {AggregatorInfo}.
Arguments cryptoKey {AggregatorInfo}.
Arguments cryptoKey_calls {AggregatorInfo}.
Arguments loadConfig {AggregatorInfo}.

(** * Vocabulary of the specification *)

(** The rate the specification calls effective: the provider's rate when
    present, else the global rate. *)
Definition spec_effective_rate {A : Type} (c : config A) (p : provider.t)
    : option float :=
  match provider.Rate p with
  | Some r => Some r
  | None => Rate c
  end.

(** The message for a provider name that was seen before. *)
Definition duplicate_message (name : string) : error :=
  ("provider '" +:+ name +:+ "' is configured more than once")%string.

(** The verdict on one provider as the specification words it, given the
    providers that come before it in the list: the name is looked at first,
    then the domain, then whether an earlier provider has the same name. *)
Definition spec_provider_failure (earlier : list provider.t)
    (p : provider.t) : option error :=
  if decide (provider.Name p = ""%string)
  then Some "no name given for provider"%string
  else if decide (provider.Domain p = ""%string)
  then Some "no domain given for provider"%string
  else if decide (provider.Name p ∈ provider.Name <$> earlier)
  then Some (duplicate_message (provider.Name p))
  else None.

(** Position [i] holds the second provider of its name: exactly one
    position before [i] holds the same name. *)
Definition second_occurrence (ps : list provider.t) (i : nat) : Prop :=
  exists p j q,
    ps !! i = Some p /\ (j < i)%nat /\ ps !! j = Some q
    /\ provider.Name q = provider.Name p
    /\ forall j' q', (j' < i)%nat -> ps !! j' = Some q' ->
         provider.Name q' = provider.Name p -> j' = j.

(** The map [already] holds exactly the names of the providers visited so
    far. *)
Definition seen_in (already : gmap string bool)
    (earlier : list provider.t) : Prop :=
  forall s, default false (already !! s) = true <->
            s ∈ provider.Name <$> earlier.

(** An outcome is recorded: the cache holds a key handle or an error. *)
Definition recorded {A : Type} (c : config A) : Prop :=
  key c <> None \/ keyErr c <> None.

(** ** Concrete configurations and environments *)

(** Configurations whose metadata block is empty. *)
Definition provider_named (name domain : string) : provider.t :=
  provider.mk name domain None None.

Definition config_with (workers : Z) (ps : list provider.t) (keyPath : string)
    : config unit :=
  mkConfig workers "" "" "" None None tt ps keyPath None false None None.

Definition two_providers : list provider.t :=
  [provider_named "alpha" "alpha.example"; provider_named "beta" "beta.example"].

Definition three_providers : list provider.t :=
  two_providers ++ [provider_named "gamma" "gamma.example"].

Definition duplicated_providers : list provider.t :=
  two_providers ++ [provider_named "alpha" "other.example"].

(** A configuration with a global rate and the global insecure flag, and a
    provider with a rate of its own that asks for verification. *)
Definition relaxed_config : config unit :=
  mkConfig 1 "" "" "" (Some 1%float) (Some true) tt two_providers "" None
    false None None.

Definition strict_provider : provider.t :=
  provider.mk "alpha" "alpha.example" (Some 5%float) (Some false).

(** A metadata validation that rejects everything, one that accepts
    everything, and decoders that give a fixed configuration. *)
Definition reject_metadata (a : unit) : option error :=
  Some "invalid aggregator metadata"%string.

Definition accept_metadata (a : unit) : option error := None.

Definition decode_to (c : config unit) (path : string)
    : config unit * option error :=
  (c, None).

(** A file system on which the key file can be opened once and is gone
    afterwards, one without the key file, and a parser that accepts what it
    reads. *)
Definition open_once (tr : list event) (path : string) : os_File + error :=
  if (opens tr =? 0)%nat then inl 3%nat
  else inr "open: no such file or directory"%string.

Definition never_open (tr : list event) (path : string) : os_File + error :=
  inr "open: no such file or directory"%string.

Definition parse_ok (tr : list event) (f : os_File)
    : option crypto_Key * option error :=
  (Some (7 + f)%nat, None).

Definition key_loaded : config unit :=
  mkConfig 1 "" "" "" None None tt two_providers "key.asc" None
    false (Some 10%nat) None.

Definition key_failed : config unit :=
  mkConfig 1 "" "" "" None None tt two_providers "key.asc" None
    false None (Some "open: no such file or directory"%string).

Definition first_load : list event :=
  [EvLock; EvOpen "key.asc"; EvParse 3%nat; EvClose 3%nat; EvUnlock].

(** ** Vocabulary of the further properties *)

(** A provider with a name and a domain. *)
Definition valid_provider (p : provider.t) : Prop :=
  provider.Name p <> ""%string /\ provider.Domain p <> ""%string.

(** A provider list whose entries all have a name and a domain and in
    which no name occurs twice. *)
Definition valid_providers (ps : list provider.t) : Prop :=
  Forall valid_provider ps /\ NoDup (provider.Name <$> ps).

(** Counting the events of one kind in a history. *)
Definition count_events (kind : event -> bool) (tr : list event) : nat :=
  length (List.filter kind tr).

Definition is_lock (e : event) : bool :=
  match e with
  | EvLock => true
  | _ => false
  end.

Definition is_unlock (e : event) : bool :=
  match e with
  | EvUnlock => true
  | _ => false
  end.

Definition is_parse (e : event) : bool :=
  match e with
  | EvParse _ => true
  | _ => false
  end.

Definition is_close (e : event) : bool :=
  match e with
  | EvClose _ => true
  | _ => false
  end.

(** The configuration a call of [cryptoKey] returned, and its history. *)
Definition outcome_config {A R : Type}
    (o : outcome (R * config A * list event)) : option (config A) :=
  match o with
  | Returns (_, c, _) => Some c
  | Blocked => None
  end.

Definition outcome_history {A R : Type}
    (o : outcome (R * config A * list event)) : option (list event) :=
  match o with
  | Returns (_, _, tr) => Some tr
  | Blocked => None
  end.

(** The events of one call of [cryptoKey] on the key path [path], started
    at the history [tr] on the file system [os_Open]: nothing without key
    path; taking and releasing the mutex around a cached outcome; a failed
    open between the two; or an open that gave the file [f], followed by
    parsing [f] and closing [f], between the two. *)
Definition call_events (os_Open : list event -> string -> os_File + error)
    (path : string) (tr new : list event) : Prop :=
  (path = ""%string /\ new = [])
  \/ (path <> ""%string /\ new = [EvLock; EvUnlock])
  \/ (path <> ""%string
      /\ exists err, os_Open (tr ++ [EvLock]) path = inr err
           /\ new = [EvLock; EvOpen path; EvUnlock])
  \/ (path <> ""%string
      /\ exists f, os_Open (tr ++ [EvLock]) path = inl f
           /\ new = [EvLock; EvOpen path; EvParse f; EvClose f; EvUnlock]).

(** The events of calls one after the other, one segment per call, each
    started at the history the calls before it left. *)
Fixpoint calls_events (os_Open : list event -> string -> os_File + error)
    (path : string) (tr : list event) (segs : list (list event)) : Prop :=
  match segs with
  | [] => True
  | new :: rest =>
      call_events os_Open path tr new
      /\ calls_events os_Open path (tr ++ new) rest
  end.

(** A file system on which every open succeeds, with a fresh handle each
    time, and a parser that gives neither a key nor an error. *)
Definition open_always (tr : list event) (path : string) : os_File + error :=
  inl (opens tr).

Definition parse_nothing (tr : list event) (f : os_File)
    : option crypto_Key * option error :=
  (None, None).

(** * Properties *)

(** Reduction of field accesses and field assignments. *)
Ltac reduce_fields :=
  lazy beta iota delta
    [Workers Folder Web Domain Rate Insecure Aggregator Providers Key
     Passphrase keyMu key keyErr
     set_Workers set_Folder set_Web set_Domain set_keyMu set_key set_keyErr].

Ltac is_straight t :=
  lazymatch t with
  | context [if _ then _ else _] => fail
  | context [let _ := _ in _] => fail
  | _ => idtac
  end.

(** Runs the next assignment of a function body whose right-hand side is
    already a value. *)
Ltac bind_next :=
  match goal with
  | |- context C [let x := ?v in @?b x] =>
      is_straight v; let g := context C [b v] in change g
  end.

(** Decides the next conditional, by a recorded answer if there is one. *)
Ltac split_if :=
  match goal with
  | H : ?b = _ |- context [if ?b then _ else _] => rewrite H
  | |- context [if ?b then _ else _] => is_straight b; destruct b eqn:?
  end.

(** Runs a function body statement by statement. *)
Ltac run_body :=
  reduce_fields; repeat (first [split_if | bind_next]; reduce_fields).

Ltac to_props :=
  repeat match goal with
    | H : (_ <=? _) = true |- _ => apply Z.leb_le in H
    | H : (_ <=? _) = false |- _ => apply Z.leb_gt in H
    | H : (_ >? _) = true |- _ => rewrite Z.gtb_ltb in H; apply Z.ltb_lt in H
    | H : (_ >? _) = false |- _ => rewrite Z.gtb_ltb in H; apply Z.ltb_ge in H
    | H : (_ =? _) = true |- _ => apply Z.eqb_eq in H
    | H : (_ =? _) = false |- _ => apply Z.eqb_neq in H
    end.

(** ** The client factory *)

Section ClientFactory.

Variable AggregatorInfo : Type.

(** The [http.Client] inside the result depends on the two insecure flags
    only. *)
Lemma httpClient_client_http (c : config AggregatorInfo) (p : provider.t) :
  client_http (httpClient c p) =
    if set_and_true (provider.Insecure p) || set_and_true (Insecure c)
    then {| Transport := Some {| TLSClientConfig :=
              Some {| InsecureSkipVerify := true |} |} |}
    else {| Transport := None |}.
Proof.
  unfold httpClient.
  destruct (negb (non_nil (provider.Rate p)) && negb (non_nil (Rate c)));
    reflexivity.
Qed.

Lemma set_and_true_spec (o : option bool) :
  set_and_true o = true <-> o = Some true.
Proof. destruct o as [[]|]; simpl; split; congruence. Qed.

(** C1: [httpClient] skips certificate verification exactly when the
    provider's insecure flag is present and true or the global one is
    present and true.  A provider flag that is explicitly false does not
    protect against a true global flag, and with both flags absent the
    client verifies certificates. *)
Theorem httpClient_skips_verification (c : config AggregatorInfo) (p : provider.t) :
  (skipsVerify (client_http (httpClient c p)) = true <->
     provider.Insecure p = Some true \/ Insecure c = Some true)
  /\ (provider.Insecure p = Some false -> Insecure c = Some true ->
      skipsVerify (client_http (httpClient c p)) = true)
  /\ (provider.Insecure p = None -> Insecure c = None ->
      skipsVerify (client_http (httpClient c p)) = false).
Proof.
  rewrite httpClient_client_http.
  repeat split.
  - destruct (set_and_true (provider.Insecure p)) eqn:Hp.
    + intros _. left. now apply set_and_true_spec.
    + destruct (set_and_true (Insecure c)) eqn:Hc; simpl.
      * intros _. right. now apply set_and_true_spec.
      * discriminate.
  - intros [H | H]; apply set_and_true_spec in H; rewrite H; simpl.
    + reflexivity.
    + now rewrite orb_true_r.
  - intros -> ->. reflexivity.
  - intros -> ->. reflexivity.
Qed.

(** C6: with neither rate set the plain client is returned as it is.
    Otherwise the result is a [limitingClient] around that same plain
    client, with a limiter of burst capacity 1 whose rate is the provider's
    rate when present and the global rate otherwise. *)
Theorem httpClient_rate_limiting (c : config AggregatorInfo) (p : provider.t) :
  (provider.Rate p = None -> Rate c = None ->
     httpClient c p = plainClient (client_http (httpClient c p)))
  /\ (forall r, spec_effective_rate c p = Some r ->
        httpClient c p =
          limitingClient (client_http (httpClient c p))
                         {| limit := r; burst := 1 |})
  /\ (forall (c' : config AggregatorInfo) (p' : provider.t),
        Insecure c' = Insecure c ->
        provider.Insecure p' = provider.Insecure p ->
        client_http (httpClient c' p') = client_http (httpClient c p))
  /\ (provider.Rate p = Some 5%float -> Rate c = Some 1%float ->
      client_limiter (httpClient c p) = Some {| limit := 5; burst := 1 |})
  /\ (provider.Rate p = None -> Rate c = Some 2%float ->
      client_limiter (httpClient c p) = Some {| limit := 2; burst := 1 |}).
Proof.
  repeat split.
  - intros Hp Hc. unfold httpClient. rewrite Hp, Hc. reflexivity.
  - intros r. unfold spec_effective_rate, httpClient.
    destruct (provider.Rate p) as [rp|], (Rate c) as [rc|]; simpl;
      intros [= <-]; reflexivity.
  - intros c' p' Hc Hp. rewrite !httpClient_client_http, Hc, Hp. reflexivity.
  - intros Hp Hc. unfold httpClient. rewrite Hp, Hc. reflexivity.
  - intros Hp Hc. unfold httpClient. rewrite Hp, Hc. reflexivity.
Qed.

End ClientFactory.

(** ** Defaults *)

Section Defaults.

Variable AggregatorInfo : Type.

(** What [setDefaults] leaves in every field. *)
Lemma setDefaults_closed (n : Z) (c : config AggregatorInfo) :
  setDefaults n c =
    mkConfig
      (Z.min (if Workers c <=? 0 then Z.min n defaultWorkers else Workers c)
             (Z.of_nat (length (Providers c))))
      (if (Folder c =? "")%string then defaultFolder else Folder c)
      (if (Web c =? "")%string then defaultWeb else Web c)
      (if (Domain c =? "")%string then defaultDomain else Domain c)
      (Rate c) (Insecure c) (Aggregator c) (Providers c) (Key c)
      (Passphrase c) (keyMu c) (key c) (keyErr c).
Proof.
  destruct c as [w f wb d r i a ps k pp mu ky ke].
  cbv delta [setDefaults defaultWorkers]; cbv beta.
  run_body; to_props; f_equal; lia.
Qed.

(** Filling an empty string with a non-empty default is idempotent. *)
Lemma default_string_idempotent (s d : string) :
  d <> ""%string ->
  let s' := if (s =? "")%string then d else s in
  (if (s' =? "")%string then d else s') = s'.
Proof.
  intros Hd. cbv zeta.
  destruct (s =? "")%string eqn:Hs.
  - apply String.eqb_neq in Hd. now rewrite Hd.
  - now rewrite Hs.
Qed.

(** The worker count computation is idempotent for a positive
    parallelism. *)
Lemma worker_count_idempotent (n w len : Z) :
  1 <= n -> 0 <= len ->
  let w' := Z.min (if w <=? 0 then Z.min n defaultWorkers else w) len in
  Z.min (if w' <=? 0 then Z.min n defaultWorkers else w') len = w'.
Proof.
  unfold defaultWorkers. intros Hn Hlen. cbv zeta.
  destruct (w <=? 0) eqn:Hw;
    match goal with
    | |- context [if ?b then _ else _] => destruct b eqn:Hw'
    end; to_props; lia.
Qed.

(** C2: a non-positive worker count is replaced by the minimum of the
    reported parallelism and 10; the count, wherever it came from, is then
    clamped down to the number of providers, which makes it 0 for an empty
    provider list.  Three instances: parallelism 4 with 2 providers gives 2
    (with no count given, and with every given count but 1), parallelism
    20 with 50 providers and no count given gives 10, a given count of 100
    with 3 providers gives 3. *)
Theorem setDefaults_worker_count (n : Z) (c : config AggregatorInfo) :
  Workers (setDefaults n c) =
    Z.min (if Workers c <=? 0 then Z.min n 10 else Workers c)
          (Z.of_nat (length (Providers c)))
  /\ (1 <= n -> Providers c = [] -> Workers (setDefaults n c) = 0)
  /\ (n = 4 -> Workers c <> 1 -> length (Providers c) = 2%nat ->
      Workers (setDefaults n c) = 2)
  /\ (n = 20 -> Workers c <= 0 -> length (Providers c) = 50%nat ->
      Workers (setDefaults n c) = 10)
  /\ (Workers c = 100 -> length (Providers c) = 3%nat ->
      Workers (setDefaults n c) = 3).
Proof.
  rewrite setDefaults_closed. unfold defaultWorkers.
  cbn [Workers].
  repeat split.
  - intros Hn ->. change (Z.of_nat (length [])) with 0.
    destruct (Workers c <=? 0) eqn:Hw; to_props; lia.
  - intros -> Hw ->. destruct (Workers c <=? 0) eqn:Hle; to_props; lia.
  - intros -> Hw ->. apply Z.leb_le in Hw. rewrite Hw. reflexivity.
  - intros -> ->. reflexivity.
Qed.

(** C9: with the same reported parallelism, running [setDefaults] on its
    own result changes nothing, the empty provider list included. *)
Theorem setDefaults_idempotent (n : Z) (c : config AggregatorInfo) :
  1 <= n ->
  setDefaults n (setDefaults n c) = setDefaults n c.
Proof.
  intros Hn.
  rewrite (setDefaults_closed n (setDefaults n c)).
  rewrite (setDefaults_closed n c).
  cbn [Workers Folder Web Domain Rate Insecure Aggregator Providers Key
       Passphrase keyMu key keyErr].
  rewrite (default_string_idempotent (Folder c) defaultFolder) by discriminate.
  rewrite (default_string_idempotent (Web c) defaultWeb) by discriminate.
  rewrite (default_string_idempotent (Domain c) defaultDomain) by discriminate.
  rewrite (worker_count_idempotent n (Workers c)) by lia.
  reflexivity.
Qed.

(** C10: [setDefaults] writes to the folder, the web root, the domain and
    the worker count only; the providers, the global rate and insecure
    flag, the aggregator metadata, the key path, the passphrase, the mutex
    and the cached key and error are as before. *)
Theorem setDefaults_frame (n : Z) (c : config AggregatorInfo) :
  Providers (setDefaults n c) = Providers c
  /\ Rate (setDefaults n c) = Rate c
  /\ Insecure (setDefaults n c) = Insecure c
  /\ Aggregator (setDefaults n c) = Aggregator c
  /\ Key (setDefaults n c) = Key c
  /\ Passphrase (setDefaults n c) = Passphrase c
  /\ keyMu (setDefaults n c) = keyMu c
  /\ key (setDefaults n c) = key c
  /\ keyErr (setDefaults n c) = keyErr c.
Proof.
  rewrite setDefaults_closed. repeat split; reflexivity.
Qed.

End Defaults.

(** ** Validation of the provider list *)

Lemma seen_in_empty : seen_in ∅ [].
Proof.
  intros s. rewrite lookup_empty. simpl. split; [discriminate|].
  intros H. inversion H.
Qed.

Lemma seen_in_insert (already : gmap string bool)
    (earlier : list provider.t) (p : provider.t) :
  seen_in already earlier ->
  seen_in (<[provider.Name p := true]> already) (earlier ++ [p]).
Proof.
  intros Hseen s. rewrite fmap_app, elem_of_app. simpl.
  rewrite list_elem_of_singleton.
  destruct (decide (provider.Name p = s)) as [<-|Hne].
  - rewrite lookup_insert_eq. simpl. tauto.
  - rewrite lookup_insert_ne by exact Hne. rewrite (Hseen s).
    split; [tauto|]. intros [H|H]; [exact H | congruence].
Qed.

(** One round of the loop is the specification's verdict on the provider. *)
Lemma checkProviders_loop_cons (already : gmap string bool)
    (earlier : list provider.t) (p : provider.t) (ps : list provider.t) :
  seen_in already earlier ->
  checkProviders_loop already (p :: ps) =
    match spec_provider_failure earlier p with
    | Some e => Some e
    | None => checkProviders_loop (<[provider.Name p := true]> already) ps
    end.
Proof.
  intros Hseen. unfold spec_provider_failure. cbn [checkProviders_loop].
  destruct (decide (provider.Name p = ""%string)) as [Hn|Hn].
  - apply String.eqb_eq in Hn. now rewrite Hn.
  - apply String.eqb_neq in Hn. rewrite Hn.
    destruct (decide (provider.Domain p = ""%string)) as [Hd|Hd].
    + apply String.eqb_eq in Hd. now rewrite Hd.
    + apply String.eqb_neq in Hd. rewrite Hd.
      destruct (decide (provider.Name p ∈ provider.Name <$> earlier))
        as [Hin|Hin].
      * apply Hseen in Hin. now rewrite Hin.
      * destruct (default false (already !! provider.Name p)) eqn:Hl.
        -- exfalso. apply Hin, Hseen, Hl.
        -- reflexivity.
Qed.

(** The loop returns the verdict on the first provider that fails, and
    [nil] when none fails. *)
Lemma checkProviders_loop_first_failure (ps : list provider.t) :
  forall (already : gmap string bool) (earlier : list provider.t),
  seen_in already earlier ->
  match checkProviders_loop already ps with
  | None =>
      forall i p, ps !! i = Some p ->
        spec_provider_failure (earlier ++ take i ps) p = None
  | Some e =>
      exists i p, ps !! i = Some p
        /\ spec_provider_failure (earlier ++ take i ps) p = Some e
        /\ forall j q, (j < i)%nat -> ps !! j = Some q ->
             spec_provider_failure (earlier ++ take j ps) q = None
  end.
Proof.
  induction ps as [|p ps IH]; intros already earlier Hseen.
  - cbn [checkProviders_loop]. intros i p Hi. rewrite lookup_nil in Hi.
    discriminate.
  - rewrite (checkProviders_loop_cons already earlier) by exact Hseen.
    destruct (spec_provider_failure earlier p) as [e|] eqn:Hp.
    + exists 0%nat, p. cbn [take]. rewrite app_nil_r.
      split; [reflexivity|]. split; [exact Hp|]. intros j q Hj. lia.
    + specialize (IH _ _ (seen_in_insert already earlier p Hseen)).
      destruct (checkProviders_loop _ ps) as [e|].
      * destruct IH as (i & q & Hi & Hq & Hbefore).
        exists (S i), q. cbn [take]. rewrite cons_middle, app_assoc.
        split; [exact Hi|]. split; [exact Hq|].
        intros [|j] r Hj Hr.
        -- cbn [take]. rewrite app_nil_r. simpl in Hr. congruence.
        -- cbn [take]. rewrite cons_middle, app_assoc.
           apply Hbefore; [lia | exact Hr].
      * intros [|i] q Hq.
        -- cbn [take]. rewrite app_nil_r. simpl in Hq. congruence.
        -- cbn [take]. rewrite cons_middle, app_assoc. apply IH, Hq.
Qed.

(** A provider that passes has a name that no earlier provider has. *)
Lemma spec_provider_failure_None (earlier : list provider.t)
    (p : provider.t) :
  spec_provider_failure earlier p = None ->
  provider.Name p ∉ provider.Name <$> earlier.
Proof.
  unfold spec_provider_failure. repeat case_decide; congruence.
Qed.

Section Validation.

Variable AggregatorInfo : Type.

(** C4: [checkProviders] visits the providers in declaration order and
    returns the verdict on the first one that fails: an empty name, else an
    empty domain, else a name that an earlier provider has, each with its
    message; it returns [nil] when every provider passes.  A provider
    reported as configured more than once is the second of its name. *)
Theorem checkProviders_first_failure (c : config AggregatorInfo) :
  match checkProviders c with
  | None =>
      forall i p, Providers c !! i = Some p ->
        spec_provider_failure (take i (Providers c)) p = None
  | Some e =>
      exists i p, Providers c !! i = Some p
        /\ spec_provider_failure (take i (Providers c)) p = Some e
        /\ (forall j q, (j < i)%nat -> Providers c !! j = Some q ->
              spec_provider_failure (take j (Providers c)) q = None)
        /\ (e = duplicate_message (provider.Name p) ->
            provider.Name p <> ""%string ->
            provider.Domain p <> ""%string ->
            second_occurrence (Providers c) i)
  end.
Proof.
  unfold checkProviders.
  pose proof (checkProviders_loop_first_failure (Providers c) ∅ []
                seen_in_empty) as H.
  cbn [app] in H.
  destruct (checkProviders_loop ∅ (Providers c)) as [e|]; [|exact H].
  destruct H as (i & p & Hi & Hp & Hbefore).
  exists i, p. repeat split; try assumption.
  intros _ Hn Hd.
  assert (Hin : provider.Name p ∈ provider.Name <$> take i (Providers c)).
  { unfold spec_provider_failure in Hp.
    repeat case_decide; try congruence. }
  apply list_elem_of_fmap in Hin as (q & Hq & Hin).
  apply list_elem_of_lookup in Hin as (j & Hj).
  apply lookup_take_Some in Hj as (Hj & Hlt).
  exists p, j, q. repeat split; try assumption; try congruence.
  intros j' q' Hlt' Hj' Hname.
  destruct (Nat.lt_trichotomy j' j) as [Hc|[Hc|Hc]]; [|exact Hc|]; exfalso.
  - apply (spec_provider_failure_None _ _ (Hbefore j q Hlt Hj)).
    apply list_elem_of_fmap. exists q'. split; [congruence|].
    apply list_elem_of_lookup. exists j'. apply lookup_take_Some. tauto.
  - apply (spec_provider_failure_None _ _ (Hbefore j' q' Hlt' Hj')).
    apply list_elem_of_fmap. exists q. split; [congruence|].
    apply list_elem_of_lookup. exists j. apply lookup_take_Some. tauto.
Qed.

End Validation.

(** ** Loading *)

Section Loading.

Variable AggregatorInfo : Type.
Variable Validate : AggregatorInfo -> option error.
Variable toml_DecodeFile : string -> config AggregatorInfo * option error.
Variable NumCPU : Z.

(** [check] on a configuration after [setDefaults] looks at the provider
    list and the metadata that were decoded. *)
Lemma check_setDefaults (n : Z) (c : config AggregatorInfo) :
  check Validate (setDefaults n c) =
    if Z.of_nat (length (Providers c)) =? 0
    then Some "no providers given in configuration"%string
    else
      match Validate (Aggregator c) with
      | Some err => Some err
      | None => checkProviders_loop ∅ (Providers c)
      end.
Proof.
  unfold check, checkProviders. rewrite setDefaults_closed. reflexivity.
Qed.

(** What [loadConfig] returns once the file was decoded without error. *)
Lemma loadConfig_decoded (path : string) :
  snd (toml_DecodeFile
         (if (path =? "")%string then defaultConfigPath else path)) = None ->
  loadConfig Validate toml_DecodeFile NumCPU path =
    let cfg :=
      setDefaults NumCPU
        (fst (toml_DecodeFile
                (if (path =? "")%string then defaultConfigPath else path))) in
    match check Validate cfg with
    | Some err => (None, Some err)
    | None => (Some cfg, None)
    end.
Proof.
  intros Hdec. unfold loadConfig. cbv zeta. rewrite Hdec. reflexivity.
Qed.

(** C5, as the code has it: when the decoded configuration has no
    providers, [loadConfig] fails with the message
    "no providers given in configuration", whatever the metadata
    validation would say; with providers, a metadata error comes before
    any provider error; and whenever [loadConfig] returns an error it
    returns no configuration, the error being the first that [check]
    meets. *)
Theorem loadConfig_failure (path : string) (cfg : config AggregatorInfo) :
  toml_DecodeFile (if (path =? "")%string then defaultConfigPath else path)
    = (cfg, None) ->
  (Providers cfg = [] ->
     loadConfig Validate toml_DecodeFile NumCPU path =
       (None, Some "no providers given in configuration"%string))
  /\ (forall e, Providers cfg <> [] -> Validate (Aggregator cfg) = Some e ->
        loadConfig Validate toml_DecodeFile NumCPU path = (None, Some e))
  /\ (forall e, Providers cfg <> [] -> Validate (Aggregator cfg) = None ->
        checkProviders cfg = Some e ->
        loadConfig Validate toml_DecodeFile NumCPU path = (None, Some e))
  /\ (forall r e, loadConfig Validate toml_DecodeFile NumCPU path = (r, Some e) ->
        r = None /\ check Validate (setDefaults NumCPU cfg) = Some e).
Proof.
  intros Hdec.
  assert (Hload : loadConfig Validate toml_DecodeFile NumCPU path =
            match check Validate (setDefaults NumCPU cfg) with
            | Some err => (None, Some err)
            | None => (Some (setDefaults NumCPU cfg), None)
            end).
  { rewrite loadConfig_decoded; rewrite Hdec; reflexivity. }
  rewrite Hload, check_setDefaults.
  repeat split.
  - intros ->. reflexivity.
  - intros e Hne Hv. destruct (Providers cfg); [congruence|].
    cbn [length]. rewrite Hv. reflexivity.
  - intros e Hne Hv Hp. destruct (Providers cfg) eqn:Hps; [congruence|].
    cbn [length]. rewrite Hv. unfold checkProviders in Hp.
    rewrite Hps in Hp. rewrite Hp. reflexivity.
  - destruct (if Z.of_nat (length (Providers cfg)) =? 0 then _ else _);
      congruence.
  - destruct (if Z.of_nat (length (Providers cfg)) =? 0 then _ else _);
      congruence.
Qed.

(** C7: a configuration that [loadConfig] returns has a worker count of at
    least 1 and at most the number of its providers.  The runtime reports
    at least one CPU. *)
Theorem loadConfig_worker_bounds (path : string) (cfg : config AggregatorInfo) :
  1 <= NumCPU ->
  loadConfig Validate toml_DecodeFile NumCPU path = (Some cfg, None) ->
  1 <= Workers cfg <= Z.of_nat (length (Providers cfg)).
Proof.
  intros Hn. unfold loadConfig. cbv zeta.
  destruct (toml_DecodeFile _) as [cfg0 [err|]]; cbn [fst snd];
    [discriminate|].
  rewrite check_setDefaults.
  destruct (Z.of_nat (length (Providers cfg0)) =? 0) eqn:Hlen;
    [discriminate|].
  destruct (Validate (Aggregator cfg0)); [discriminate|].
  destruct (checkProviders_loop ∅ (Providers cfg0)); [discriminate|].
  intros [= <-]. rewrite setDefaults_closed.
  cbn [Workers Providers]. unfold defaultWorkers.
  to_props. destruct (Workers cfg0 <=? 0) eqn:Hw; to_props; lia.
Qed.

End Loading.

(** ** The key cache *)

Lemma opens_app (tr tr' : list event) :
  opens (tr ++ tr') = (opens tr + opens tr')%nat.
Proof. unfold opens. now rewrite List.filter_app, length_app. Qed.

Section KeyCache.

Variable AggregatorInfo : Type.
Variable os_Open : list event -> string -> os_File + error.
Variable crypto_NewKeyFromArmoredReader :
  list event -> os_File -> option crypto_Key * option error.

Lemma recorded_non_nil (c : config AggregatorInfo) :
  recorded c <-> non_nil (key c) || non_nil (keyErr c) = true.
Proof.
  unfold recorded.
  destruct (key c), (keyErr c); simpl; split; intros H;
    try reflexivity; try discriminate; try (left; discriminate);
    try (right; discriminate).
  destruct H as [H|H]; now contradict H.
Qed.

Lemma release_after_acquire (c : config AggregatorInfo) :
  keyMu c = false -> set_keyMu false (set_keyMu true c) = c.
Proof.
  destruct c as [w f wb d r i a ps k pp mu ky ke]. simpl. now intros ->.
Qed.

(** A call without key path returns at once and touches nothing. *)
Lemma cryptoKey_no_key_path (c : config AggregatorInfo) (tr : list event) :
  Key c = ""%string -> cryptoKey os_Open crypto_NewKeyFromArmoredReader c tr = Returns ((None, None), c, tr).
Proof. intros H. unfold cryptoKey. now rewrite H. Qed.

(** A call on a recorded outcome hands it back; it takes and releases the
    mutex and does nothing else. *)
Lemma cryptoKey_cached (c : config AggregatorInfo) (tr : list event) :
  Key c <> ""%string -> keyMu c = false -> recorded c ->
  cryptoKey os_Open crypto_NewKeyFromArmoredReader c tr = Returns ((key c, keyErr c), c, tr ++ [EvLock; EvUnlock]).
Proof.
  intros Hk Hmu Hrec. unfold cryptoKey.
  apply String.eqb_neq in Hk. rewrite Hk, Hmu. cbv zeta.
  apply recorded_non_nil in Hrec.
  change (key (set_keyMu true c)) with (key c).
  change (keyErr (set_keyMu true c)) with (keyErr c).
  rewrite Hrec, release_after_acquire by exact Hmu.
  now rewrite <- app_assoc.
Qed.

(** What every returning call with a key path guarantees: the mutex is
    free again, the results are the recorded fields, the key path is
    unchanged, and the file was opened once if the cache was empty and not
    at all otherwise. *)
Lemma cryptoKey_returns (c : config AggregatorInfo) (tr : list event)
    (r : option crypto_Key * option error) (c1 : config AggregatorInfo)
    (tr1 : list event) :
  Key c <> ""%string ->
  cryptoKey os_Open crypto_NewKeyFromArmoredReader c tr = Returns (r, c1, tr1) ->
  keyMu c1 = false /\ Key c1 = Key c /\ r = (key c1, keyErr c1)
  /\ (key c = None -> keyErr c = None -> opens tr1 = S (opens tr))
  /\ (recorded c -> c1 = c /\ opens tr1 = opens tr).
Proof.
  intros Hk. destruct (keyMu c) eqn:Hmu.
  { unfold cryptoKey. apply String.eqb_neq in Hk. rewrite Hk, Hmu.
    discriminate. }
  destruct (non_nil (key c) || non_nil (keyErr c)) eqn:Hcache.
  { apply recorded_non_nil in Hcache.
    rewrite cryptoKey_cached by assumption.
    intros [= <- <- <-]. rewrite !opens_app.
    repeat split; try assumption.
    - intros Hkey Herr. destruct Hcache; congruence.
    - unfold opens. simpl. lia. }
  assert (Hempty : ~ recorded c).
  { rewrite recorded_non_nil, Hcache. discriminate. }
  assert (Hkey : key c = None).
  { destruct (key c); [discriminate Hcache | reflexivity]. }
  unfold cryptoKey. apply String.eqb_neq in Hk. rewrite Hk, Hmu. cbv zeta.
  change (key (set_keyMu true c)) with (key c).
  change (keyErr (set_keyMu true c)) with (keyErr c).
  change (Key (set_keyMu true c)) with (Key c).
  rewrite Hcache.
  destruct (os_Open (tr ++ [EvLock]) (Key c)) as [f|err];
    intros [= <- <- <-]; rewrite !opens_app.
  - split; [reflexivity|]. split; [reflexivity|]. split; [reflexivity|].
    split; [intros _ _; unfold opens; simpl; lia | intros H; contradiction].
  - split; [reflexivity|]. split; [reflexivity|].
    split; [cbn; now rewrite Hkey|].
    split; [intros _ _; unfold opens; simpl; lia | intros H; contradiction].
Qed.

(** Any number of calls on a recorded outcome return it every time, leave
    the configuration as it is and open no file. *)
Lemma cryptoKey_calls_cached (n : nat) (c : config AggregatorInfo) :
  Key c <> ""%string -> keyMu c = false -> recorded c ->
  forall tr, exists tr',
    cryptoKey_calls os_Open crypto_NewKeyFromArmoredReader n c tr = Returns (repeat (key c, keyErr c) n, c, tr')
    /\ opens tr' = opens tr.
Proof.
  intros Hk Hmu Hrec. induction n as [|n IH]; intros tr.
  - exists tr. split; reflexivity.
  - cbn [cryptoKey_calls repeat].
    rewrite cryptoKey_cached by assumption.
    destruct (IH (tr ++ [EvLock; EvUnlock])) as (tr' & Hcalls & Hopens).
    exists tr'. rewrite Hcalls. split; [reflexivity|].
    rewrite Hopens, opens_app. unfold opens. simpl. lia.
Qed.

(** A call with a key path on a free mutex and an empty cache: the file is
    opened; an open error is recorded and returned; an opened file goes to
    the parser, whose two results are recorded and returned, and is
    closed. *)
Lemma cryptoKey_fresh (c : config AggregatorInfo) (tr : list event) :
  Key c <> ""%string -> keyMu c = false ->
  key c = None -> keyErr c = None ->
  cryptoKey os_Open crypto_NewKeyFromArmoredReader c tr =
    match os_Open (tr ++ [EvLock]) (Key c) with
    | inr err =>
        Returns ((None, Some err), set_keyErr (Some err) c,
                 tr ++ [EvLock; EvOpen (Key c); EvUnlock])
    | inl f =>
        let parsed :=
          crypto_NewKeyFromArmoredReader
            ((tr ++ [EvLock]) ++ [EvOpen (Key c)]) f in
        Returns (parsed, set_keyErr (snd parsed) (set_key (fst parsed) c),
                 tr ++ [EvLock; EvOpen (Key c); EvParse f; EvClose f;
                        EvUnlock])
    end.
Proof.
  intros Hk Hmu Hkey Herr. unfold cryptoKey.
  apply String.eqb_neq in Hk. rewrite Hk, Hmu. cbv zeta.
  change (key (set_keyMu true c)) with (key c).
  change (keyErr (set_keyMu true c)) with (keyErr c).
  change (Key (set_keyMu true c)) with (Key c).
  rewrite Hkey, Herr. cbn [non_nil orb].
  destruct c as [w fo wb d r i a ps k pp mu ky ke].
  cbn [keyMu key keyErr Key] in *. subst mu ky ke.
  destruct (os_Open (tr ++ [EvLock]) k) as [f|err].
  - destruct (crypto_NewKeyFromArmoredReader _ f) as [pk pe].
    cbn. rewrite <- !app_assoc. reflexivity.
  - cbn. rewrite <- !app_assoc. reflexivity.
Qed.

(** Every call falls under one of four descriptions. *)
Lemma cryptoKey_cases (c : config AggregatorInfo) :
  Key c = ""%string
  \/ (Key c <> ""%string /\ keyMu c = true)
  \/ (Key c <> ""%string /\ keyMu c = false /\ recorded c)
  \/ (Key c <> ""%string /\ keyMu c = false
      /\ key c = None /\ keyErr c = None).
Proof.
  destruct (decide (Key c = ""%string)) as [Hk|Hk]; [now left|].
  right. destruct (keyMu c); [now left|]. right.
  unfold recorded.
  destruct (key c); [left; repeat split; try assumption; left; discriminate|].
  destruct (keyErr c);
    [left; repeat split; try assumption; right; discriminate|].
  right. repeat split; assumption.
Qed.

Lemma set_cache_same (c : config AggregatorInfo) :
  set_keyErr (keyErr c) (set_key (key c) c) = c.
Proof. destruct c; reflexivity. Qed.

(** A call on a free mutex returns and leaves the mutex free. *)
Lemma cryptoKey_free_returns (c : config AggregatorInfo) (tr : list event) :
  keyMu c = false ->
  exists r c1 tr1,
    cryptoKey os_Open crypto_NewKeyFromArmoredReader c tr
      = Returns (r, c1, tr1)
    /\ keyMu c1 = false.
Proof.
  intros Hfree.
  destruct (cryptoKey_cases c)
    as [Hk | [(Hk & Hmu) | [(Hk & Hmu & Hrec) | (Hk & Hmu & Hkey & Herr)]]].
  - rewrite cryptoKey_no_key_path by exact Hk. eauto.
  - congruence.
  - rewrite cryptoKey_cached by assumption. eauto.
  - rewrite cryptoKey_fresh by assumption.
    destruct (os_Open (tr ++ [EvLock]) (Key c)) as [f|err];
      do 3 eexists; (split; [reflexivity | exact Hmu]).
Qed.

(** C3: a call with a key path on a free mutex returns, and what it
    returns is what the cache holds afterwards.  Once an outcome is
    recorded, a call returns it, leaves the cache as it is and opens no
    file; so after a call that returned a key or an error, any number of
    later calls, whatever happened in between, return the same and open no
    file.  On an empty cache the call opens the file exactly once and
    returns the open error or the parser's answer: with a valid key every
    call returns the same handle and the file is opened once in all, and
    after a first failure every call returns the same error and the file
    is not opened again. *)
Theorem cryptoKey_memoized (c : config AggregatorInfo) (tr : list event) :
  Key c <> ""%string -> keyMu c = false ->
  exists r c1 tr1,
    cryptoKey os_Open crypto_NewKeyFromArmoredReader c tr
      = Returns (r, c1, tr1)
    /\ r = (key c1, keyErr c1)
    /\ (recorded c ->
        c1 = c /\ r = (key c, keyErr c) /\ opens tr1 = opens tr)
    /\ (r <> (None, None) ->
        forall n later, exists tr2,
          cryptoKey_calls os_Open crypto_NewKeyFromArmoredReader n c1
            (tr1 ++ later) = Returns (repeat r n, c1, tr2)
          /\ opens tr2 = opens (tr1 ++ later))
    /\ (key c = None -> keyErr c = None ->
        opens tr1 = S (opens tr)
        /\ match os_Open (tr ++ [EvLock]) (Key c) with
           | inr err => r = (None, Some err)
           | inl f =>
               r = crypto_NewKeyFromArmoredReader
                     ((tr ++ [EvLock]) ++ [EvOpen (Key c)]) f
           end
        /\ (forall f k,
              os_Open (tr ++ [EvLock]) (Key c) = inl f ->
              crypto_NewKeyFromArmoredReader
                ((tr ++ [EvLock]) ++ [EvOpen (Key c)]) f = (Some k, None) ->
              forall n, exists tr2,
                cryptoKey_calls os_Open crypto_NewKeyFromArmoredReader
                  (S n) c tr
                  = Returns (repeat (Some k, None) (S n), c1, tr2)
                /\ opens tr2 = S (opens tr))
        /\ (forall e, snd r = Some e ->
              forall n, exists tr2,
                cryptoKey_calls os_Open crypto_NewKeyFromArmoredReader
                  (S n) c tr = Returns (repeat r (S n), c1, tr2)
                /\ opens tr2 = S (opens tr))).
Proof.
  intros Hk Hmu.
  destruct (cryptoKey_free_returns c tr Hmu)
    as (r & c1 & tr1 & Hcall & Hmu1).
  destruct (cryptoKey_returns c tr r c1 tr1 Hk Hcall)
    as (_ & Hk1 & Hr & Hfresh & Hcached).
  assert (Hlater : r <> (None, None) ->
            forall n later, exists tr2,
              cryptoKey_calls os_Open crypto_NewKeyFromArmoredReader n c1
                (tr1 ++ later) = Returns (repeat r n, c1, tr2)
              /\ opens tr2 = opens (tr1 ++ later)).
  { intros Hne n later. rewrite Hr.
    apply cryptoKey_calls_cached; [congruence | exact Hmu1 |].
    rewrite Hr in Hne. unfold recorded.
    destruct (key c1), (keyErr c1);
      [left | left | right | contradiction]; discriminate. }
  assert (Hmany : r <> (None, None) ->
            forall n, exists tr2,
              cryptoKey_calls os_Open crypto_NewKeyFromArmoredReader (S n)
                c tr = Returns (repeat r (S n), c1, tr2)
              /\ opens tr2 = opens tr1).
  { intros Hne n. cbn [cryptoKey_calls repeat]. rewrite Hcall.
    destruct (Hlater Hne n []) as (tr2 & Hcalls & Hopens).
    rewrite app_nil_r in Hcalls, Hopens. rewrite Hcalls.
    exists tr2. split; [reflexivity | exact Hopens]. }
  exists r, c1, tr1.
  split; [exact Hcall|]. split; [exact Hr|].
  split.
  { intros Hrec. destruct (Hcached Hrec) as (Hc1 & Hopens).
    rewrite Hc1 in Hr. repeat split; assumption. }
  split; [exact Hlater|].
  intros Hkey Herr. pose proof (Hfresh Hkey Herr) as Hopen1.
  split; [exact Hopen1|].
  assert (Hanswer :
            match os_Open (tr ++ [EvLock]) (Key c) with
            | inr err => r = (None, Some err)
            | inl f =>
                r = crypto_NewKeyFromArmoredReader
                      ((tr ++ [EvLock]) ++ [EvOpen (Key c)]) f
            end).
  { pose proof Hcall as Hcall'.
    rewrite cryptoKey_fresh in Hcall' by assumption.
    destruct (os_Open (tr ++ [EvLock]) (Key c)) as [f|err].
    - cbv zeta in Hcall'. now injection Hcall' as <- _ _.
    - now injection Hcall' as <- _ _. }
  split; [exact Hanswer|]. split.
  - intros f k Hf Hparsed n. rewrite Hf, Hparsed in Hanswer.
    rewrite <- Hanswer, <- Hopen1. apply Hmany. rewrite Hanswer.
    discriminate.
  - intros e He n. rewrite <- Hopen1. apply Hmany.
    intros Hnil. rewrite Hnil in He. discriminate He.
Qed.

(** C8: without key path every call returns [(nil, nil)], even while the
    mutex is held; it takes no lock, opens no file and leaves the
    configuration, and with it the cache, as it was. *)
Theorem cryptoKey_without_key_path (c : config AggregatorInfo) (tr : list event) :
  Key c = ""%string ->
  cryptoKey os_Open crypto_NewKeyFromArmoredReader c tr = Returns ((None, None), c, tr)
  /\ forall n,
       cryptoKey_calls os_Open crypto_NewKeyFromArmoredReader n c tr = Returns (repeat (None, None) n, c, tr).
Proof.
  intros Hk. split; [now apply cryptoKey_no_key_path|].
  induction n as [|n IH]; [reflexivity|].
  cbn [cryptoKey_calls repeat].
  rewrite cryptoKey_no_key_path by exact Hk. now rewrite IH.
Qed.

End KeyCache.

(** * Concrete runs *)

(** ** Defaults *)

Example setDefaults_fills_strings :
  setDefaults 4 (config_with 0 two_providers "") =
    mkConfig 2 "/var/www" "/var/www/html" "https://example.com"
      None None tt two_providers "" None false None None.
Proof. reflexivity. Qed.

Example setDefaults_twenty_cpus_fifty_providers :
  Workers (setDefaults 20
             (config_with 0 (repeat (provider_named "p" "d") 50) "")) = 10.
Proof. reflexivity. Qed.

Example setDefaults_hundred_workers_three_providers :
  Workers (setDefaults 4 (config_with 100 three_providers "")) = 3.
Proof. reflexivity. Qed.

Lemma setDefaults_worker_count_witness :
  Workers (setDefaults 4 (config_with 0 two_providers "")) = 2
  /\ Workers (setDefaults 4 (config_with 7 [] "")) = 0.
Proof.
  split.
  - apply (setDefaults_worker_count unit 4 (config_with 0 two_providers ""));
      [reflexivity | discriminate | reflexivity].
  - apply (setDefaults_worker_count unit 4 (config_with 7 [] ""));
      [lia | reflexivity].
Defined.

Lemma setDefaults_idempotent_witness :
  setDefaults 4 (setDefaults 4 (config_with 7 [] "")) =
    setDefaults 4 (config_with 7 [] "").
Proof. apply (setDefaults_idempotent unit 4 (config_with 7 [] "")). lia. Defined.

(** ** The client factory *)

Example httpClient_relaxed_and_limited :
  httpClient relaxed_config strict_provider =
    limitingClient
      {| Transport := Some {| TLSClientConfig :=
           Some {| InsecureSkipVerify := true |} |} |}
      {| limit := 5; burst := 1 |}.
Proof. reflexivity. Qed.

Example httpClient_plain_and_strict :
  httpClient (config_with 1 two_providers "") (provider_named "alpha" "a") =
    plainClient {| Transport := None |}.
Proof. reflexivity. Qed.

Lemma httpClient_skips_verification_witness :
  skipsVerify (client_http (httpClient relaxed_config strict_provider)) = true.
Proof.
  apply (httpClient_skips_verification unit relaxed_config strict_provider);
    reflexivity.
Defined.

Lemma httpClient_rate_limiting_witness :
  client_limiter (httpClient relaxed_config strict_provider) =
    Some {| limit := 5; burst := 1 |}.
Proof.
  apply (httpClient_rate_limiting unit relaxed_config strict_provider);
    reflexivity.
Defined.

(** ** Validation *)

Example checkProviders_accepts_distinct_names :
  checkProviders (config_with 1 three_providers "") = None.
Proof. vm_compute. reflexivity. Qed.

Example checkProviders_reports_duplicate :
  checkProviders (config_with 1 duplicated_providers "") =
    Some "provider 'alpha' is configured more than once"%string.
Proof. vm_compute. reflexivity. Qed.

Example checkProviders_name_before_domain :
  checkProviders (config_with 1 [provider_named "" ""] "") =
    Some "no name given for provider"%string.
Proof. vm_compute. reflexivity. Qed.

Example checkProviders_first_failure_wins :
  checkProviders
    (config_with 1 (two_providers ++ [provider_named "delta" "";
                                      provider_named "alpha" "a"]) "") =
    Some "no domain given for provider"%string.
Proof. vm_compute. reflexivity. Qed.

Lemma checkProviders_first_failure_witness :
  match checkProviders (config_with 1 duplicated_providers "") with
  | None => False
  | Some e =>
      exists i p, duplicated_providers !! i = Some p
        /\ spec_provider_failure (take i duplicated_providers) p = Some e
  end.
Proof.
  pose proof (checkProviders_first_failure unit
                (config_with 1 duplicated_providers "")) as H.
  destruct (checkProviders (config_with 1 duplicated_providers "")) as [e|].
  - destruct H as (i & p & Hi & Hp & _). exists i, p. split; assumption.
  - specialize (H 2%nat (provider_named "alpha" "other.example") eq_refl).
    vm_compute in H. discriminate H.
Defined.

(** ** Loading *)

Example loadConfig_resolves_defaults :
  loadConfig accept_metadata (decode_to (config_with 0 three_providers ""))
    2 "" =
    (Some (mkConfig 2 "/var/www" "/var/www/html" "https://example.com"
             None None tt three_providers "" None false None None),
     None).
Proof. vm_compute. reflexivity. Qed.

Example loadConfig_metadata_before_providers :
  loadConfig reject_metadata
    (decode_to (config_with 0 duplicated_providers "")) 2 "" =
    (None, Some "invalid aggregator metadata"%string).
Proof. vm_compute. reflexivity. Qed.

Lemma loadConfig_failure_witness :
  loadConfig reject_metadata (decode_to (config_with 3 [] "")) 4 "" =
    (None, Some "no providers given in configuration"%string).
Proof.
  apply (proj1 (loadConfig_failure unit reject_metadata
                  (decode_to (config_with 3 [] "")) 4 ""
                  (config_with 3 [] "") eq_refl)).
  reflexivity.
Defined.

(** The message for an empty provider list is longer than
    "no providers given". *)
Lemma loadConfig_empty_providers_message :
  loadConfig accept_metadata (decode_to (config_with 3 [] "")) 4
    "aggregator.toml" =
    (None, Some "no providers given in configuration"%string)
  /\ loadConfig accept_metadata (decode_to (config_with 3 [] "")) 4
       "aggregator.toml" <>
     (None, Some "no providers given"%string).
Proof. split; [reflexivity | discriminate]. Qed.

Lemma loadConfig_worker_bounds_witness :
  1 <= Workers (setDefaults 2 (config_with 0 three_providers ""))
    <= Z.of_nat (length
         (Providers (setDefaults 2 (config_with 0 three_providers "")))).
Proof.
  apply (loadConfig_worker_bounds unit accept_metadata
           (decode_to (config_with 0 three_providers "")) 2 "");
    [lia | vm_compute; reflexivity].
Defined.

(** ** The key cache *)

Example cryptoKey_first_call :
  cryptoKey open_once parse_ok (config_with 1 two_providers "key.asc") [] =
    Returns ((Some 10%nat, None), key_loaded, first_load).
Proof. reflexivity. Qed.

Example cryptoKey_three_calls_one_open :
  cryptoKey_calls open_once parse_ok 3
    (config_with 1 two_providers "key.asc") [] =
    Returns (repeat (Some 10%nat, None) 3, key_loaded,
             first_load ++ [EvLock; EvUnlock; EvLock; EvUnlock]).
Proof. reflexivity. Qed.

Example cryptoKey_failure_is_kept :
  cryptoKey_calls never_open parse_ok 2
    (config_with 1 two_providers "key.asc") [] =
    Returns (repeat (None, Some "open: no such file or directory"%string) 2,
             key_failed,
             [EvLock; EvOpen "key.asc"; EvUnlock; EvLock; EvUnlock]).
Proof. reflexivity. Qed.

Example cryptoKey_blocks_on_held_mutex :
  cryptoKey open_once parse_ok
    (mkConfig 1 "" "" "" None None tt two_providers "key.asc" None
       true None None) [] = Blocked.
Proof. reflexivity. Qed.

Lemma cryptoKey_memoized_witness :
  exists tr2,
    cryptoKey_calls open_once parse_ok 5
      (config_with 1 two_providers "key.asc") [] =
      Returns (repeat (Some 10%nat, None) 5, key_loaded, tr2)
    /\ opens tr2 = 1%nat.
Proof.
  destruct (cryptoKey_memoized unit open_once parse_ok
              (config_with 1 two_providers "key.asc") []
              ltac:(discriminate) eq_refl)
    as (r & c1 & tr1 & Hcall & _ & _ & _ & Hfresh).
  injection Hcall as <- <- <-.
  destruct (Hfresh eq_refl eq_refl) as (_ & _ & Hvalid & _).
  exact (Hvalid 3%nat 10%nat eq_refl eq_refl 4%nat).
Defined.

Lemma cryptoKey_without_key_path_witness :
  cryptoKey_calls open_once parse_ok 4
    (mkConfig 1 "" "" "" None None tt two_providers "" None true None None)
    [] =
    Returns (repeat (None, None) 4,
             mkConfig 1 "" "" "" None None tt two_providers "" None
               true None None,
             []).
Proof.
  apply (cryptoKey_without_key_path unit open_once parse_ok
           (mkConfig 1 "" "" "" None None tt two_providers "" None
              true None None) []).
  reflexivity.
Defined.

(** * Further properties *)

(** ** Validation of the provider list *)

(** The loop accepts exactly the lists of valid providers whose names are
    new and pairwise different. *)
Lemma checkProviders_loop_accepts (ps : list provider.t) :
  forall (already : gmap string bool) (earlier : list provider.t),
  seen_in already earlier ->
  checkProviders_loop already ps = None <->
    Forall valid_provider ps
    /\ NoDup (provider.Name <$> ps)
    /\ (forall s, s ∈ provider.Name <$> ps -> s ∉ provider.Name <$> earlier).
Proof.
  induction ps as [|p ps IH]; intros already earlier Hseen.
  - cbn [checkProviders_loop fmap list_fmap]. split; [|reflexivity].
    intros _. split; [constructor|]. split; [constructor|].
    intros s Hs. inversion Hs.
  - rewrite (checkProviders_loop_cons already earlier) by exact Hseen.
    rewrite fmap_cons, Forall_cons, NoDup_cons.
    unfold spec_provider_failure, valid_provider.
    destruct (decide (provider.Name p = ""%string)) as [Hn|Hn].
    { split; [discriminate | tauto]. }
    destruct (decide (provider.Domain p = ""%string)) as [Hd|Hd].
    { split; [discriminate | tauto]. }
    destruct (decide (provider.Name p ∈ provider.Name <$> earlier))
      as [Hin|Hin].
    { split; [discriminate|]. intros (_ & _ & Hnew).
      exfalso. apply (Hnew (provider.Name p)); [left | exact Hin]. }
    rewrite (IH _ _ (seen_in_insert already earlier p Hseen)).
    rewrite fmap_app. cbn [fmap list_fmap].
    split.
    + intros (Hall & Hnd & Hnew). repeat split; try assumption.
      * intros Hp. apply (Hnew _ Hp). apply elem_of_app. right. left.
      * intros s Hs Hearlier. apply elem_of_cons in Hs as [->|Hs].
        -- contradiction.
        -- apply (Hnew _ Hs). apply elem_of_app. left. exact Hearlier.
    + intros ((_ & Hall) & (Hp & Hnd) & Hnew). repeat split; try assumption.
      intros s Hs Hearlier. apply elem_of_app in Hearlier as [He|He].
      * apply (Hnew s); [right; exact Hs | exact He].
      * apply list_elem_of_singleton in He as ->. contradiction.
Qed.

(** Started on the empty map, the loop accepts exactly the valid provider
    lists. *)
Lemma checkProviders_loop_accepts_valid (ps : list provider.t) :
  checkProviders_loop ∅ ps = None <-> valid_providers ps.
Proof.
  unfold valid_providers.
  rewrite (checkProviders_loop_accepts ps ∅ [] seen_in_empty).
  split.
  - intros (Hall & Hnd & _). split; assumption.
  - intros (Hall & Hnd). repeat split; try assumption.
    intros s _ Hs. inversion Hs.
Qed.

Section ValidationMore.

Variable AggregatorInfo : Type.

(** X1: [checkProviders] returns [nil] exactly when every provider has a
    name and a domain and no two providers have the same name. *)
Theorem checkProviders_accepts_iff (c : config AggregatorInfo) :
  checkProviders c = None <->
    Forall valid_provider (Providers c)
    /\ NoDup (provider.Name <$> Providers c).
Proof. apply checkProviders_loop_accepts_valid. Qed.

(** X2: whether [checkProviders] accepts does not depend on the order in
    which the providers are declared. *)
Theorem checkProviders_accepts_permutation (c c' : config AggregatorInfo) :
  Providers c ≡ₚ Providers c' ->
  checkProviders c = None <-> checkProviders c' = None.
Proof.
  intros Hperm. unfold checkProviders.
  rewrite !checkProviders_loop_accepts_valid.
  unfold valid_providers. now rewrite Hperm.
Qed.

End ValidationMore.

(** ** Defaults *)

Section DefaultsMore.

Variable AggregatorInfo : Type.
Variable Validate : AggregatorInfo -> option error.

(** A configuration with all three strings set and a worker count between
    1 and the number of providers is left as it is, whatever the
    parallelism. *)
Lemma setDefaults_resolved (n : Z) (c : config AggregatorInfo) :
  Folder c <> ""%string -> Web c <> ""%string -> Domain c <> ""%string ->
  0 < Workers c <= Z.of_nat (length (Providers c)) ->
  setDefaults n c = c.
Proof.
  intros Hf Hw Hd Hn. rewrite setDefaults_closed.
  apply String.eqb_neq in Hf, Hw, Hd. rewrite Hf, Hw, Hd.
  destruct (Workers c <=? 0) eqn:Hle; to_props; [lia|].
  rewrite Z.min_l by lia. destruct c; reflexivity.
Qed.

(** X3: after [setDefaults] the folder, the web root and the domain are
    non-empty and the worker count is at most the number of providers,
    for every reported parallelism; a count that was not given ends at
    most at 10, and with at least one CPU the count is never negative. *)
Theorem setDefaults_postcondition (n : Z) (c : config AggregatorInfo) :
  Folder (setDefaults n c) <> ""%string
  /\ Web (setDefaults n c) <> ""%string
  /\ Domain (setDefaults n c) <> ""%string
  /\ Workers (setDefaults n c)
       <= Z.of_nat (length (Providers (setDefaults n c)))
  /\ (Workers c <= 0 -> Workers (setDefaults n c) <= 10)
  /\ (1 <= n -> 0 <= Workers (setDefaults n c)).
Proof.
  rewrite setDefaults_closed.
  cbn [Workers Folder Web Domain Providers]. unfold defaultWorkers.
  repeat split.
  - destruct (Folder c =? "")%string eqn:H; [discriminate|].
    now apply String.eqb_neq.
  - destruct (Web c =? "")%string eqn:H; [discriminate|].
    now apply String.eqb_neq.
  - destruct (Domain c =? "")%string eqn:H; [discriminate|].
    now apply String.eqb_neq.
  - lia.
  - intros Hw. apply Z.leb_le in Hw. rewrite Hw. lia.
  - intros Hn. destruct (Workers c <=? 0) eqn:Hw; to_props; lia.
Qed.

(** X4: [setDefaults] keeps what the operator gave: a non-empty folder, web
    root or domain, and a worker count between 1 and the number of
    providers, whatever the reported parallelism; a configuration that has
    all four is returned unchanged. *)
Theorem setDefaults_keeps_given (n : Z) (c : config AggregatorInfo) :
  (Folder c <> ""%string -> Folder (setDefaults n c) = Folder c)
  /\ (Web c <> ""%string -> Web (setDefaults n c) = Web c)
  /\ (Domain c <> ""%string -> Domain (setDefaults n c) = Domain c)
  /\ (0 < Workers c <= Z.of_nat (length (Providers c)) ->
      Workers (setDefaults n c) = Workers c)
  /\ (Folder c <> ""%string -> Web c <> ""%string ->
      Domain c <> ""%string ->
      0 < Workers c <= Z.of_nat (length (Providers c)) ->
      setDefaults n c = c).
Proof.
  split; [|split; [|split; [|split]]]; [ | | | | apply setDefaults_resolved];
    rewrite setDefaults_closed; cbn [Workers Folder Web Domain].
  - intros H. apply String.eqb_neq in H. now rewrite H.
  - intros H. apply String.eqb_neq in H. now rewrite H.
  - intros H. apply String.eqb_neq in H. now rewrite H.
  - intros H. destruct (Workers c <=? 0) eqn:Hle; to_props; lia.
Qed.

(** X5: [setDefaults] changes neither the verdict of [check] and of
    [checkProviders] nor the client that [httpClient] builds for a
    provider. *)
Theorem setDefaults_preserves_verdicts (n : Z) (c : config AggregatorInfo)
    (p : provider.t) :
  check Validate (setDefaults n c) = check Validate c
  /\ checkProviders (setDefaults n c) = checkProviders c
  /\ httpClient (setDefaults n c) p = httpClient c p.
Proof.
  unfold check, checkProviders, httpClient.
  rewrite setDefaults_closed. repeat split; reflexivity.
Qed.

(** X6: the client that [httpClient] builds depends on the two rates and
    the two insecure flags only: configurations and providers that agree
    on them get equal clients. *)
Theorem httpClient_depends_on_overrides (c c' : config AggregatorInfo)
    (p p' : provider.t) :
  Rate c = Rate c' -> Insecure c = Insecure c' ->
  provider.Rate p = provider.Rate p' ->
  provider.Insecure p = provider.Insecure p' ->
  httpClient c p = httpClient c' p'.
Proof.
  intros Hr Hi Hpr Hpi. unfold httpClient.
  rewrite Hr, Hi, Hpr, Hpi. reflexivity.
Qed.

End DefaultsMore.

(** ** Loading *)

Section LoadingMore.

Variable AggregatorInfo : Type.
Variable Validate : AggregatorInfo -> option error.
Variable toml_DecodeFile : string -> config AggregatorInfo * option error.
Variable NumCPU : Z.

(** A successful [loadConfig] returns the decoded configuration after
    [setDefaults], and [check] found nothing. *)
Lemma loadConfig_success (path : string) (cfg : config AggregatorInfo) :
  loadConfig Validate toml_DecodeFile NumCPU path = (Some cfg, None) ->
  let decoded :=
    toml_DecodeFile
      (if (path =? "")%string then defaultConfigPath else path) in
  snd decoded = None
  /\ cfg = setDefaults NumCPU (fst decoded)
  /\ check Validate cfg = None.
Proof.
  unfold loadConfig. cbv zeta.
  destruct (toml_DecodeFile _) as [cfg0 [err|]]; cbn [fst snd];
    [discriminate|].
  destruct (check Validate (setDefaults NumCPU cfg0)) eqn:Hcheck;
    [discriminate|].
  intros [= <-]. repeat split. exact Hcheck.
Qed.

(** What a passed [check] says about a configuration. *)
Lemma check_passed (c : config AggregatorInfo) :
  check Validate c = None ->
  Providers c <> [] /\ Validate (Aggregator c) = None
  /\ valid_providers (Providers c).
Proof.
  unfold check, checkProviders.
  destruct (Providers c) as [|p ps] eqn:Hps; [discriminate|].
  cbn [length]. rewrite Nat2Z.inj_succ.
  destruct (Z.succ _ =? 0) eqn:Hz; [discriminate|].
  destruct (Validate (Aggregator c)); [discriminate|].
  intros H. apply checkProviders_loop_accepts_valid in H.
  repeat split; [discriminate | apply H | apply H].
Qed.

(** X7: [loadConfig] returns either a configuration and no error, or an
    error and no configuration; an error of the decoder is returned as it
    is. *)
Theorem loadConfig_result_exclusive (path : string) :
  ((exists cfg,
      loadConfig Validate toml_DecodeFile NumCPU path = (Some cfg, None))
   \/ (exists e,
         loadConfig Validate toml_DecodeFile NumCPU path = (None, Some e)))
  /\ (forall e,
        snd (toml_DecodeFile
               (if (path =? "")%string then defaultConfigPath else path))
          = Some e ->
        loadConfig Validate toml_DecodeFile NumCPU path = (None, Some e)).
Proof.
  unfold loadConfig. cbv zeta.
  destruct (toml_DecodeFile _) as [cfg0 [err|]]; cbn [fst snd].
  - split; [right; exists err; reflexivity|]. now intros e [= <-].
  - split; [|discriminate].
    destruct (check Validate (setDefaults NumCPU cfg0)) as [e|].
    + right. exists e. reflexivity.
    + left. eexists. reflexivity.
Qed.

(** X8: [loadConfig] looks at the path only after replacing the empty
    path by "aggregator.toml": two paths that name the same file this way
    give the same result, so the empty path and "aggregator.toml" do. *)
Theorem loadConfig_default_path (path path' : string) :
  ((if (path =? "")%string then "aggregator.toml"%string else path) =
   (if (path' =? "")%string then "aggregator.toml"%string else path') ->
   loadConfig Validate toml_DecodeFile NumCPU path =
     loadConfig Validate toml_DecodeFile NumCPU path')
  /\ loadConfig Validate toml_DecodeFile NumCPU "" =
       loadConfig Validate toml_DecodeFile NumCPU "aggregator.toml".
Proof.
  split; [|reflexivity].
  unfold loadConfig, defaultConfigPath. cbv zeta. now intros ->.
Qed.

(** X9: a configuration that [loadConfig] returns is the decoded one after
    [setDefaults]; it has at least one provider, metadata that [Validate]
    accepts, providers that all have a name and a domain with no name
    twice, a non-empty folder, web root and domain, and at most as many
    workers as providers. *)
Theorem loadConfig_success_invariants (path : string)
    (cfg : config AggregatorInfo) :
  loadConfig Validate toml_DecodeFile NumCPU path = (Some cfg, None) ->
  cfg = setDefaults NumCPU
          (fst (toml_DecodeFile
                  (if (path =? "")%string then defaultConfigPath else path)))
  /\ Providers cfg <> []
  /\ Validate (Aggregator cfg) = None
  /\ valid_providers (Providers cfg)
  /\ Folder cfg <> ""%string /\ Web cfg <> ""%string
  /\ Domain cfg <> ""%string
  /\ Workers cfg <= Z.of_nat (length (Providers cfg)).
Proof.
  intros Hload. apply loadConfig_success in Hload as (_ & Hcfg & Hcheck).
  apply check_passed in Hcheck as (Hne & Hv & Hps).
  split; [exact Hcfg|]. split; [exact Hne|]. split; [exact Hv|].
  split; [exact Hps|]. rewrite Hcfg, setDefaults_closed.
  cbn [Workers Folder Web Domain Providers].
  repeat split.
  - destruct (Folder _ =? "")%string eqn:H; [discriminate|].
    now apply String.eqb_neq.
  - destruct (Web _ =? "")%string eqn:H; [discriminate|].
    now apply String.eqb_neq.
  - destruct (Domain _ =? "")%string eqn:H; [discriminate|].
    now apply String.eqb_neq.
  - lia.
Qed.

(** X10: with at least one CPU, a configuration that [loadConfig] returns
    is final: [setDefaults] leaves it as it is for every parallelism, and
    [check] accepts it again. *)
Theorem loadConfig_success_stable (path : string)
    (cfg : config AggregatorInfo) :
  1 <= NumCPU ->
  loadConfig Validate toml_DecodeFile NumCPU path = (Some cfg, None) ->
  (forall n, setDefaults n cfg = cfg) /\ check Validate cfg = None.
Proof.
  intros Hn Hload. apply loadConfig_success in Hload as (_ & Hcfg & Hcheck).
  split; [|exact Hcheck]. intros n.
  destruct (check_passed cfg Hcheck) as (Hne & _ & _).
  assert (Hlen : 0 < Z.of_nat (length (Providers cfg))).
  { destruct (Providers cfg); [congruence | cbn [length]; lia]. }
  revert Hlen. rewrite Hcfg, setDefaults_closed.
  set (c0 := fst (toml_DecodeFile _)).
  cbn [Providers]. intros Hlen.
  apply setDefaults_resolved; cbn [Workers Folder Web Domain Providers].
  - destruct (Folder c0 =? "")%string eqn:H; [discriminate|].
    now apply String.eqb_neq.
  - destruct (Web c0 =? "")%string eqn:H; [discriminate|].
    now apply String.eqb_neq.
  - destruct (Domain c0 =? "")%string eqn:H; [discriminate|].
    now apply String.eqb_neq.
  - unfold defaultWorkers.
    destruct (Workers c0 <=? 0) eqn:Hw; to_props; lia.
Qed.

End LoadingMore.

(** ** The key cache *)

Lemma count_events_app (kind : event -> bool) (tr tr' : list event) :
  count_events kind (tr ++ tr') =
    (count_events kind tr + count_events kind tr')%nat.
Proof. unfold count_events. now rewrite List.filter_app, length_app. Qed.

Section KeyCacheMore.

Variable AggregatorInfo : Type.
Variable os_Open : list event -> string -> os_File + error.
Variable crypto_NewKeyFromArmoredReader :
  list event -> os_File -> option crypto_Key * option error.

(** One returning call: what it leaves in the configuration and what it
    adds to the history. *)
Lemma cryptoKey_call_effect (c : config AggregatorInfo) (tr : list event)
    (r : option crypto_Key * option error) (c1 : config AggregatorInfo)
    (tr1 : list event) :
  cryptoKey os_Open crypto_NewKeyFromArmoredReader c tr
    = Returns (r, c1, tr1) ->
  c1 = set_keyErr (keyErr c1) (set_key (key c1) c)
  /\ exists new, tr1 = tr ++ new
      /\ count_events is_lock new = count_events is_unlock new
      /\ count_events is_parse new = count_events is_close new
      /\ (count_events is_parse new <= opens new <= 1)%nat.
Proof.
  destruct (cryptoKey_cases _ c)
    as [Hk | [(Hk & Hmu) | [(Hk & Hmu & Hrec) | (Hk & Hmu & Hkey & Herr)]]].
  - rewrite cryptoKey_no_key_path by exact Hk. intros [= <- <- <-].
    split; [now rewrite set_cache_same|].
    exists []. rewrite app_nil_r. repeat split; cbn; lia.
  - unfold cryptoKey. apply String.eqb_neq in Hk. rewrite Hk, Hmu.
    discriminate.
  - rewrite cryptoKey_cached by assumption. intros [= <- <- <-].
    split; [now rewrite set_cache_same|].
    exists [EvLock; EvUnlock]. repeat split; cbn; lia.
  - rewrite cryptoKey_fresh by assumption.
    destruct (os_Open (tr ++ [EvLock]) (Key c)) as [f|err].
    + cbv zeta. intros [= <- <- <-].
      split; [destruct c; reflexivity|].
      eexists. split; [reflexivity|]. repeat split; cbn; lia.
    + intros [= <- <- <-].
      split; [destruct c; cbn in *; subst; reflexivity|].
      eexists. split; [reflexivity|]. repeat split; cbn; lia.
Qed.

(** X11: a call of [cryptoKey] that returns has changed nothing of the
    configuration but the cached key and error, and has only added to the
    history. *)
Theorem cryptoKey_frame (c : config AggregatorInfo) (tr : list event)
    (r : option crypto_Key * option error) (c1 : config AggregatorInfo)
    (tr1 : list event) :
  cryptoKey os_Open crypto_NewKeyFromArmoredReader c tr
    = Returns (r, c1, tr1) ->
  c1 = set_keyErr (keyErr c1) (set_key (key c1) c)
  /\ exists new, tr1 = tr ++ new.
Proof.
  intros Hcall.
  destruct (cryptoKey_call_effect c tr r c1 tr1 Hcall)
    as (Hc1 & new & Htr & _).
  split; [exact Hc1 | exists new; exact Htr].
Qed.

(** X12: a call blocks exactly when there is a key path and the mutex is
    held.  Every return path releases the mutex, so calls one after the
    other that start on a free mutex all return. *)
Theorem cryptoKey_never_blocks_itself (c : config AggregatorInfo)
    (tr : list event) :
  (cryptoKey os_Open crypto_NewKeyFromArmoredReader c tr = Blocked <->
     Key c <> ""%string /\ keyMu c = true)
  /\ (keyMu c = false ->
      forall n, exists rs c' tr',
        cryptoKey_calls os_Open crypto_NewKeyFromArmoredReader n c tr
          = Returns (rs, c', tr')
        /\ length rs = n /\ keyMu c' = false).
Proof.
  split.
  - split.
    + intros Hb. destruct (decide (Key c = ""%string)) as [Hk|Hk].
      { rewrite cryptoKey_no_key_path in Hb by exact Hk. discriminate. }
      split; [exact Hk|]. destruct (keyMu c) eqn:Hmu; [reflexivity|].
      destruct (cryptoKey_free_returns _ os_Open crypto_NewKeyFromArmoredReader
              c tr Hmu) as (r & c1 & tr1 & H & _).
      congruence.
    + intros (Hk & Hmu). unfold cryptoKey.
      apply String.eqb_neq in Hk. now rewrite Hk, Hmu.
  - intros Hfree n. revert c tr Hfree.
    induction n as [|n IH]; intros c tr Hfree.
    + exists [], c, tr. repeat split. exact Hfree.
    + cbn [cryptoKey_calls].
      destruct (cryptoKey_free_returns _ os_Open
                  crypto_NewKeyFromArmoredReader c tr Hfree)
        as (r & c1 & tr1 & Hcall & Hfree1).
      rewrite Hcall.
      destruct (IH c1 tr1 Hfree1) as (rs & c' & tr' & Hcalls & Hlen & Hmu).
      rewrite Hcalls. exists (r :: rs), c', tr'.
      repeat split; [cbn [length]; lia | exact Hmu].
Qed.

(** The events that one returning call adds, and the key path it leaves. *)
Lemma cryptoKey_call_events (c : config AggregatorInfo) (tr : list event)
    (r : option crypto_Key * option error) (c1 : config AggregatorInfo)
    (tr1 : list event) :
  cryptoKey os_Open crypto_NewKeyFromArmoredReader c tr
    = Returns (r, c1, tr1) ->
  Key c1 = Key c
  /\ exists new, tr1 = tr ++ new /\ call_events os_Open (Key c) tr new.
Proof.
  unfold call_events.
  destruct (cryptoKey_cases _ c)
    as [Hk | [(Hk & Hmu) | [(Hk & Hmu & Hrec) | (Hk & Hmu & Hkey & Herr)]]].
  - rewrite cryptoKey_no_key_path by exact Hk. intros [= <- <- <-].
    split; [reflexivity|]. exists []. rewrite app_nil_r. tauto.
  - unfold cryptoKey. apply String.eqb_neq in Hk. rewrite Hk, Hmu.
    discriminate.
  - rewrite cryptoKey_cached by assumption. intros [= <- <- <-].
    split; [reflexivity|]. exists [EvLock; EvUnlock]. tauto.
  - rewrite cryptoKey_fresh by assumption.
    destruct (os_Open (tr ++ [EvLock]) (Key c)) as [f|err] eqn:Hopen.
    + cbv zeta. intros [= <- <- <-]. split; [reflexivity|].
      eexists. split; [reflexivity|].
      right. right. right. split; [exact Hk|]. exists f. split; reflexivity.
    + intros [= <- <- <-]. split; [reflexivity|].
      eexists. split; [reflexivity|].
      right. right. left. split; [exact Hk|]. exists err. split; reflexivity.
Qed.

(** X13: what any number of returning calls add to the history is one
    segment per call, in call order, each of one of four shapes: nothing,
    when there is no key path; lock, unlock; lock, open, unlock, when the
    open at that point failed; lock, open, parse f, close f, unlock, when
    the open at that point gave the file f.  So the mutex is released
    after every acquisition, a file is parsed only right after the open
    that gave it, and that same file is closed before the mutex is
    released. *)
Theorem cryptoKey_calls_bracketed (n : nat) (c : config AggregatorInfo)
    (tr : list event) (rs : list (option crypto_Key * option error))
    (c' : config AggregatorInfo) (tr' : list event) :
  cryptoKey_calls os_Open crypto_NewKeyFromArmoredReader n c tr
    = Returns (rs, c', tr') ->
  exists segs, length segs = n
    /\ tr' = tr ++ concat segs
    /\ calls_events os_Open (Key c) tr segs.
Proof.
  revert c tr rs c' tr'.
  induction n as [|n IH]; intros c tr rs c' tr'.
  - cbn [cryptoKey_calls]. intros [= <- <- <-].
    exists []. cbn. rewrite app_nil_r. repeat split.
  - cbn [cryptoKey_calls].
    destruct (cryptoKey _ _ c tr) as [[[r c1] tr1]|] eqn:Hcall;
      [|discriminate].
    destruct (cryptoKey_calls _ _ n c1 tr1) as [[[rs1 c2] tr2]|] eqn:Hcalls;
      [|discriminate].
    intros [= <- <- <-].
    destruct (cryptoKey_call_events c tr r c1 tr1 Hcall)
      as (Hkey & new & -> & Hnew).
    destruct (IH _ _ _ _ _ Hcalls) as (segs & Hlen & -> & Hsegs).
    exists (new :: segs). cbn [length concat calls_events].
    rewrite app_assoc, <- Hkey.
    split; [now rewrite Hlen|]. split; [reflexivity|].
    split; [now rewrite Hkey | exact Hsegs].
Qed.

(** X14: when the parser never answers with neither a key nor an error,
    calls one after the other that start with a key path, a free mutex and
    an empty cache open the file exactly once, whatever the first call
    finds, and all return what the first call returned. *)
Theorem cryptoKey_single_load (c : config AggregatorInfo) (tr : list event)
    (n : nat) :
  (forall h f, crypto_NewKeyFromArmoredReader h f <> (None, None)) ->
  Key c <> ""%string -> keyMu c = false ->
  key c = None -> keyErr c = None ->
  exists r c' tr',
    cryptoKey_calls os_Open crypto_NewKeyFromArmoredReader (S n) c tr
      = Returns (repeat r (S n), c', tr')
    /\ r <> (None, None)
    /\ opens tr' = S (opens tr).
Proof.
  intros Hparser Hk Hmu Hkey Herr.
  destruct (cryptoKey_free_returns _ os_Open crypto_NewKeyFromArmoredReader
              c tr Hmu) as (r & c1 & tr1 & Hcall & Hmu1).
  destruct (cryptoKey_returns _ _ _ c tr r c1 tr1 Hk Hcall)
    as (_ & Hk1 & Hr & Hfresh & _).
  assert (Hrec : recorded c1).
  { revert Hcall. rewrite cryptoKey_fresh by assumption.
    destruct (os_Open (tr ++ [EvLock]) (Key c)) as [f|err].
    - cbv zeta. intros [= _ <- _].
      pose proof (Hparser ((tr ++ [EvLock]) ++ [EvOpen (Key c)]) f) as Hp.
      destruct (crypto_NewKeyFromArmoredReader _ f) as [[pk|] [pe|]];
        unfold recorded; cbn;
        [left | left | right | contradiction]; discriminate.
    - intros [= _ <- _]. right. cbn. discriminate. }
  assert (Hk1' : Key c1 <> ""%string) by congruence.
  destruct (cryptoKey_calls_cached AggregatorInfo os_Open
              crypto_NewKeyFromArmoredReader n c1 Hk1' Hmu1 Hrec tr1)
    as (tr' & Hcalls & Hopens).
  exists r, c1, tr'. cbn [cryptoKey_calls repeat].
  rewrite Hcall, Hcalls, Hr. repeat split.
  - destruct Hrec as [H|H]; intros [= H1 H2]; congruence.
  - rewrite Hopens. now apply Hfresh.
Qed.

(** X15: an answer of the parser with neither a key nor an error is not
    kept: as long as the file opens and the parser answers so, every call
    returns [(nil, nil)], leaves the cache empty and opens the file
    again. *)
Theorem cryptoKey_nil_nil_not_cached (c : config AggregatorInfo)
    (tr : list event) (n : nat) :
  (forall h path, exists f, os_Open h path = inl f) ->
  (forall h f, crypto_NewKeyFromArmoredReader h f = (None, None)) ->
  Key c <> ""%string -> keyMu c = false ->
  key c = None -> keyErr c = None ->
  exists tr',
    cryptoKey_calls os_Open crypto_NewKeyFromArmoredReader n c tr
      = Returns (repeat (None, None) n, c, tr')
    /\ opens tr' = (opens tr + n)%nat.
Proof.
  intros Hopen Hparser Hk Hmu Hkey Herr. revert tr.
  induction n as [|n IH]; intros tr.
  - exists tr. split; [reflexivity | lia].
  - cbn [cryptoKey_calls repeat].
    rewrite cryptoKey_fresh by assumption.
    destruct (Hopen (tr ++ [EvLock]) (Key c)) as (f & ->).
    cbv zeta. rewrite Hparser. cbn [fst snd].
    pose proof (set_cache_same _ c) as Hsame. rewrite Hkey, Herr in Hsame.
    rewrite Hsame.
    destruct (IH (tr ++ [EvLock; EvOpen (Key c); EvParse f; EvClose f;
                         EvUnlock])) as (tr' & -> & Hopens).
    exists tr'. split; [reflexivity|].
    rewrite Hopens, opens_app. unfold opens. cbn. lia.
Qed.

End KeyCacheMore.

(** ** Concrete runs of the further properties *)

Example checkProviders_rejects_missing_domain_anywhere :
  checkProviders
    (config_with 1 (three_providers ++ [provider_named "delta" ""]) "")
    = Some "no domain given for provider"%string.
Proof. vm_compute. reflexivity. Qed.

Lemma checkProviders_accepts_permutation_witness :
  checkProviders
    (config_with 1 [provider_named "beta" "beta.example";
                    provider_named "alpha" "alpha.example"] "") = None <->
  checkProviders (config_with 1 two_providers "") = None.
Proof.
  apply (checkProviders_accepts_permutation unit
           (config_with 1 [provider_named "beta" "beta.example";
                           provider_named "alpha" "alpha.example"] "")
           (config_with 1 two_providers "")).
  apply perm_swap.
Defined.

Lemma setDefaults_keeps_given_witness :
  setDefaults 64
    (mkConfig 2 "/srv/csaf" "/srv/csaf/html" "https://csaf.example" None None
       tt three_providers "" None false None None) =
    mkConfig 2 "/srv/csaf" "/srv/csaf/html" "https://csaf.example" None None
      tt three_providers "" None false None None.
Proof.
  apply (setDefaults_keeps_given unit 64
           (mkConfig 2 "/srv/csaf" "/srv/csaf/html" "https://csaf.example"
              None None tt three_providers "" None false None None));
    [discriminate | discriminate | discriminate | vm_compute; intuition discriminate].
Defined.

Lemma httpClient_depends_on_overrides_witness :
  httpClient relaxed_config strict_provider =
    httpClient
      (mkConfig 9 "/srv" "/srv/html" "https://csaf.example" (Some 1%float)
         (Some true) tt [] "key.asc" None false None None)
      (provider.mk "omega" "omega.example" (Some 5%float) (Some false)).
Proof.
  apply (httpClient_depends_on_overrides unit relaxed_config
           (mkConfig 9 "/srv" "/srv/html" "https://csaf.example"
              (Some 1%float) (Some true) tt [] "key.asc" None false None
              None)
           strict_provider
           (provider.mk "omega" "omega.example" (Some 5%float)
              (Some false)));
    reflexivity.
Defined.

Lemma loadConfig_success_invariants_witness :
  valid_providers
    (Providers (setDefaults 2 (config_with 0 three_providers ""))).
Proof.
  apply (loadConfig_success_invariants unit accept_metadata
           (decode_to (config_with 0 three_providers "")) 2 ""
           (setDefaults 2 (config_with 0 three_providers ""))).
  vm_compute. reflexivity.
Defined.

Lemma loadConfig_success_stable_witness :
  setDefaults 99 (setDefaults 2 (config_with 0 three_providers "")) =
    setDefaults 2 (config_with 0 three_providers "").
Proof.
  apply (proj1 (loadConfig_success_stable unit accept_metadata
                  (decode_to (config_with 0 three_providers "")) 2 ""
                  (setDefaults 2 (config_with 0 three_providers ""))
                  ltac:(lia) ltac:(vm_compute; reflexivity))).
Defined.

Example cryptoKey_reopens_after_nil_nil :
  cryptoKey_calls open_always parse_nothing 2
    (config_with 1 two_providers "key.asc") [] =
    Returns ([(None, None); (None, None)],
             config_with 1 two_providers "key.asc",
             [EvLock; EvOpen "key.asc"; EvParse 0%nat; EvClose 0%nat;
              EvUnlock;
              EvLock; EvOpen "key.asc"; EvParse 1%nat; EvClose 1%nat;
              EvUnlock]).
Proof. reflexivity. Qed.

Lemma cryptoKey_frame_witness :
  key_loaded =
    set_keyErr (keyErr key_loaded)
      (set_key (key key_loaded) (config_with 1 two_providers "key.asc"))
  /\ exists new, first_load = [] ++ new.
Proof.
  apply (cryptoKey_frame unit open_once parse_ok
           (config_with 1 two_providers "key.asc") []
           (Some 10%nat, None) key_loaded first_load).
  reflexivity.
Defined.

Lemma cryptoKey_calls_bracketed_witness :
  exists segs, length segs = 3%nat
    /\ first_load ++ [EvLock; EvUnlock; EvLock; EvUnlock] = [] ++ concat segs
    /\ calls_events open_once "key.asc" [] segs.
Proof.
  apply (cryptoKey_calls_bracketed unit open_once parse_ok 3
           (config_with 1 two_providers "key.asc") []
           (repeat (Some 10%nat, None) 3) key_loaded
           (first_load ++ [EvLock; EvUnlock; EvLock; EvUnlock])).
  reflexivity.
Defined.

Lemma cryptoKey_single_load_witness :
  exists r c' tr',
    cryptoKey_calls never_open parse_ok 3
      (config_with 1 two_providers "key.asc") []
      = Returns (repeat r 3, c', tr')
    /\ r <> (None, None)
    /\ opens tr' = S (opens []).
Proof.
  apply (cryptoKey_single_load unit never_open parse_ok
           (config_with 1 two_providers "key.asc") [] 2).
  - intros h f. unfold parse_ok. discriminate.
  - discriminate.
  - reflexivity.
  - reflexivity.
  - reflexivity.
Defined.

Lemma cryptoKey_nil_nil_not_cached_witness :
  exists tr',
    cryptoKey_calls open_always parse_nothing 4
      (config_with 1 two_providers "key.asc") []
      = Returns (repeat (None, None) 4,
                 config_with 1 two_providers "key.asc", tr')
    /\ opens tr' = (opens [] + 4)%nat.
Proof.
  apply (cryptoKey_nil_nil_not_cached unit open_always parse_nothing
           (config_with 1 two_providers "key.asc") [] 4).
  - intros h path. exists (opens h). reflexivity.
  - intros h f. reflexivity.
  - discriminate.
  - reflexivity.
  - reflexivity.
  - reflexivity.
Defined.
